(** * G233 SPI controller (hw/ssi/g233_spi.c): register-level model

    A shallow embedding of the QEMU device model of the G233 SPI master
    controller, and the properties of its register interface.

    The device owns a register file ([G233SPIState]) and talks to three
    outside parties: the consumer of its three output lines
    ([qemu_set_irq]), the SSI bus ([ssi_transfer]) and the log
    ([qemu_log_mask]).  Every call that leaves the device is recorded in a
    trace, newest event first; the C functions become computations in a
    small state monad over the device state, the bus and that trace. *)

From Stdlib Require Import ZArith List Bool Lia.
From coqutil Require Import Z.bitblast.
Import ListNotations.

Local Open Scope Z_scope.
Local Open Scope bool_scope.

(** ** Machine integers *)

(** Conversion to [uint32_t] and to [uint8_t]. *)
Definition u32 (x : Z) : Z := x mod 2 ^ 32.
Definition u8 (x : Z) : Z := x mod 2 ^ 8.

(** [~x] on an [unsigned int]. *)
Definition not32 (x : Z) : Z := u32 (Z.lnot x).

(** A C scalar used as a condition: true when it is not zero. *)
Definition nz (x : Z) : bool := negb (x =? 0).

Definition in_u32 (x : Z) : Prop := 0 <= x < 2 ^ 32.
Definition in_u8 (x : Z) : Prop := 0 <= x < 2 ^ 8.

(** ** include/hw/ssi/g233_spi.h *)

Definition _SPI_CR1 : Z := 0x00.
Definition _SPI_CR2 : Z := 0x04.
Definition _SPI_SR : Z := 0x08.
Definition _SPI_DR : Z := 0x0C.
Definition _SPI_CSCTRL : Z := 0x10.

Definition G233_SPI_CR1_SPE : Z := Z.shiftl 1 6.
Definition G233_SPI_CR1_MSTR : Z := Z.shiftl 1 2.

Definition G233_SPI_SR_RXNE : Z := Z.shiftl 1 0.
Definition G233_SPI_SR_TXE : Z := Z.shiftl 1 1.
Definition G233_SPI_SR_UDR : Z := Z.shiftl 1 2.
Definition G233_SPI_SR_OVR : Z := Z.shiftl 1 3.
Definition G233_SPI_SR_BSY : Z := Z.shiftl 1 7.

Definition G233_SPI_CS0_ENABLE : Z := Z.shiftl 1 0.
Definition G233_SPI_CS1_ENABLE : Z := Z.shiftl 1 1.
Definition G233_SPI_CS0_ACTIVE : Z := Z.shiftl 1 4.
Definition G233_SPI_CS1_ACTIVE : Z := Z.shiftl 1 5.

(** The registers and internal flags of [struct G233SPIState].  The
    handles [ssi] and [cs_lines] of the C struct point to objects outside
    the device; they live in [World] below. *)
Record G233SPIState : Type := mkG233SPIState {
  cr1 : Z;
  cr2 : Z;
  sr : Z;
  dr : Z;
  csctrl : Z;
  rx_data : Z;
  spe : bool;
  mstr : bool;
  cs0_en : bool;
  cs0_act : bool;
  cs1_en : bool;
  cs1_act : bool
}.

(** Field assignments [s->f = v]. *)
Definition set_cr1 (v : Z) (s : G233SPIState) : G233SPIState :=
  mkG233SPIState v (cr2 s) (sr s) (dr s) (csctrl s) (rx_data s)
    (spe s) (mstr s) (cs0_en s) (cs0_act s) (cs1_en s) (cs1_act s).
Definition set_cr2 (v : Z) (s : G233SPIState) : G233SPIState :=
  mkG233SPIState (cr1 s) v (sr s) (dr s) (csctrl s) (rx_data s)
    (spe s) (mstr s) (cs0_en s) (cs0_act s) (cs1_en s) (cs1_act s).
Definition set_sr (v : Z) (s : G233SPIState) : G233SPIState :=
  mkG233SPIState (cr1 s) (cr2 s) v (dr s) (csctrl s) (rx_data s)
    (spe s) (mstr s) (cs0_en s) (cs0_act s) (cs1_en s) (cs1_act s).
Definition set_dr (v : Z) (s : G233SPIState) : G233SPIState :=
  mkG233SPIState (cr1 s) (cr2 s) (sr s) v (csctrl s) (rx_data s)
    (spe s) (mstr s) (cs0_en s) (cs0_act s) (cs1_en s) (cs1_act s).
Definition set_csctrl (v : Z) (s : G233SPIState) : G233SPIState :=
  mkG233SPIState (cr1 s) (cr2 s) (sr s) (dr s) v (rx_data s)
    (spe s) (mstr s) (cs0_en s) (cs0_act s) (cs1_en s) (cs1_act s).
Definition set_rx_data (v : Z) (s : G233SPIState) : G233SPIState :=
  mkG233SPIState (cr1 s) (cr2 s) (sr s) (dr s) (csctrl s) v
    (spe s) (mstr s) (cs0_en s) (cs0_act s) (cs1_en s) (cs1_act s).
Definition set_spe (b : bool) (s : G233SPIState) : G233SPIState :=
  mkG233SPIState (cr1 s) (cr2 s) (sr s) (dr s) (csctrl s) (rx_data s)
    b (mstr s) (cs0_en s) (cs0_act s) (cs1_en s) (cs1_act s).
Definition set_mstr (b : bool) (s : G233SPIState) : G233SPIState :=
  mkG233SPIState (cr1 s) (cr2 s) (sr s) (dr s) (csctrl s) (rx_data s)
    (spe s) b (cs0_en s) (cs0_act s) (cs1_en s) (cs1_act s).
Definition set_cs0_en (b : bool) (s : G233SPIState) : G233SPIState :=
  mkG233SPIState (cr1 s) (cr2 s) (sr s) (dr s) (csctrl s) (rx_data s)
    (spe s) (mstr s) b (cs0_act s) (cs1_en s) (cs1_act s).
Definition set_cs0_act (b : bool) (s : G233SPIState) : G233SPIState :=
  mkG233SPIState (cr1 s) (cr2 s) (sr s) (dr s) (csctrl s) (rx_data s)
    (spe s) (mstr s) (cs0_en s) b (cs1_en s) (cs1_act s).
Definition set_cs1_en (b : bool) (s : G233SPIState) : G233SPIState :=
  mkG233SPIState (cr1 s) (cr2 s) (sr s) (dr s) (csctrl s) (rx_data s)
    (spe s) (mstr s) (cs0_en s) (cs0_act s) b (cs1_act s).
Definition set_cs1_act (b : bool) (s : G233SPIState) : G233SPIState :=
  mkG233SPIState (cr1 s) (cr2 s) (sr s) (dr s) (csctrl s) (rx_data s)
    (spe s) (mstr s) (cs0_en s) (cs0_act s) (cs1_en s) b.

(** The value ranges of the C field types. *)
Definition wf_state (s : G233SPIState) : Prop :=
  in_u32 (cr1 s) /\ in_u32 (cr2 s) /\ in_u32 (sr s) /\ in_u32 (dr s) /\
  in_u32 (csctrl s) /\ in_u8 (rx_data s).

(** ** The world outside the device *)

(** The SSI bus with whatever is attached to it: a peripheral with a
    state of its own that answers every word shifted out with a word
    shifted in. *)
Record SSIBus : Type := mkSSIBus {
  peer : Type;
  peer_state : peer;
  peer_transfer : peer -> Z -> peer * Z
}.

(** Calls that leave the device. *)
Inductive event : Type :=
| EvSetIrq (n : nat) (level : Z)
    (* qemu_set_irq(s->cs_lines[n], level) *)
| EvSsiTransfer (tx rx : Z)
    (* ssi_transfer(s->ssi, tx) returned rx *)
| EvBadRead (addr : Z)
    (* qemu_log_mask(LOG_GUEST_ERROR, bad read offset) *)
| EvBadWrite (addr val : Z).
    (* qemu_log_mask(LOG_GUEST_ERROR, bad write offset) *)

Record World : Type := mkWorld {
  st : G233SPIState;
  bus : SSIBus;
  trace : list event  (* newest first *)
}.

(** The level an output line carries: the one it was last driven to. *)
Fixpoint line_level (n : nat) (t : list event) : option Z :=
  match t with
  | [] => None
  | EvSetIrq m level :: t' =>
      if Nat.eqb m n then Some level else line_level n t'
  | _ :: t' => line_level n t'
  end.

(** The number of bus exchanges in a trace. *)
Fixpoint ssi_calls (t : list event) : nat :=
  match t with
  | [] => 0%nat
  | EvSsiTransfer _ _ :: t' => S (ssi_calls t')
  | _ :: t' => ssi_calls t'
  end.

(** ** A state monad for the device code *)

Definition M (A : Type) : Type := World -> A * World.

Definition ret {A : Type} (a : A) : M A := fun w => (a, w).

Definition bind {A B : Type} (m : M A) (k : A -> M B) : M B :=
  fun w => let (a, w') := m w in k a w'.

Notation "x <- m ;; k" := (bind m (fun x => k))
  (at level 61, m at next level, right associativity).
Notation "m ;; k" := (bind m (fun _ => k))
  (at level 61, right associativity).

(** Run a computation for its final world. *)
Definition exec {A : Type} (m : M A) (w : World) : World := snd (m w).

(** Reading [*s] and assigning to it. *)
Definition get_state : M G233SPIState := fun w => (st w, w).

Definition modify (f : G233SPIState -> G233SPIState) : M unit :=
  fun w => (tt, mkWorld (f (st w)) (bus w) (trace w)).

Definition emit (e : event) : M unit :=
  fun w => (tt, mkWorld (st w) (bus w) (e :: trace w)).

Definition qemu_set_irq (n : nat) (level : Z) : M unit :=
  emit (EvSetIrq n level).

(** [uint32_t ssi_transfer(SSIBus *bus, uint32_t val)]. *)
Definition ssi_transfer (tx : Z) : M Z :=
  fun w =>
    let b := bus w in
    let (p', raw) := peer_transfer b (peer_state b) tx in
    let rx := u32 raw in
    (rx, mkWorld (st w) (mkSSIBus (peer b) p' (peer_transfer b))
           (EvSsiTransfer tx rx :: trace w)).

(** ** hw/ssi/g233_spi.c *)

Definition g233_spi_update_cs : M unit :=
  s <- get_state ;;
  qemu_set_irq 0 (if cs0_en s && cs0_act s then 0 else 1) ;;
  qemu_set_irq 1 (if cs1_en s && cs1_act s then 0 else 1).

(** The local [irq] of [g233_spi_update_irq] when it reaches the call of
    [qemu_set_irq]. *)
Definition irq_level (s : G233SPIState) : bool :=
  let irq := false in
  let irq :=
    if nz (Z.land (cr2 s) (Z.shiftl 1 7)) && nz (Z.land (sr s) G233_SPI_SR_TXE)
    then true else irq in
  let irq :=
    if nz (Z.land (cr2 s) (Z.shiftl 1 6)) && nz (Z.land (sr s) G233_SPI_SR_RXNE)
    then true else irq in
  let irq :=
    if nz (Z.land (cr2 s) (Z.shiftl 1 5)) &&
       nz (Z.land (sr s) (Z.lor G233_SPI_SR_UDR G233_SPI_SR_OVR))
    then true else irq in
  irq.

Definition g233_spi_update_irq : M unit :=
  s <- get_state ;;
  qemu_set_irq 2 (Z.b2z (irq_level s)).

Definition g233_spi_reset : M unit :=
  modify (set_cr1 0) ;;
  modify (set_cr2 0) ;;
  modify (set_sr G233_SPI_SR_TXE) ;;
  modify (set_rx_data 0) ;;
  modify (set_spe false) ;;
  modify (set_mstr false) ;;
  modify (set_cs0_en false) ;;
  modify (set_cs0_act false) ;;
  modify (set_cs1_en false) ;;
  modify (set_cs1_act false) ;;
  g233_spi_update_cs ;;
  g233_spi_update_irq.

Definition g233_spi_do_transfer (tx : Z) : M unit :=
  modify (fun s => set_sr (Z.land (sr s) (not32 G233_SPI_SR_TXE)) s) ;;
  modify (fun s => set_sr (Z.lor (sr s) G233_SPI_SR_BSY) s) ;;
  rx <- ssi_transfer tx ;;
  s <- get_state ;;
  (if nz (Z.land (sr s) G233_SPI_SR_RXNE)
   then modify (fun s => set_sr (Z.lor (sr s) G233_SPI_SR_OVR) s)
   else ret tt) ;;
  modify (set_rx_data (u8 rx)) ;;
  modify (fun s => set_sr (Z.lor (sr s) G233_SPI_SR_RXNE) s) ;;
  modify (fun s => set_sr (Z.lor (sr s) G233_SPI_SR_TXE) s) ;;
  modify (fun s => set_sr (Z.land (sr s) (not32 G233_SPI_SR_BSY)) s) ;;
  g233_spi_update_irq.

(** [size] is the access width the bus dispatcher hands over; the
    handlers do not look at it. *)
Definition g233_spi_read (addr : Z) (size : Z) : M Z :=
  s <- get_state ;;
  if addr =? _SPI_CR1 then ret (cr1 s)
  else if addr =? _SPI_CR2 then ret (cr2 s)
  else if addr =? _SPI_SR then ret (sr s)
  else if addr =? _SPI_DR then
    let val := rx_data s in
    modify (fun s => set_sr (Z.land (sr s) (not32 G233_SPI_SR_RXNE)) s) ;;
    modify (fun s => set_sr (Z.land (sr s) (not32 G233_SPI_SR_OVR)) s) ;;
    g233_spi_update_irq ;;
    ret val
  else if addr =? _SPI_CSCTRL then ret (csctrl s)
  else
    emit (EvBadRead addr) ;;
    ret 0.

Definition g233_spi_write (addr : Z) (val64 : Z) (size : Z) : M unit :=
  let val := u32 val64 in
  if addr =? _SPI_CR1 then
    modify (set_cr1 val) ;;
    modify (set_spe (nz (Z.land val G233_SPI_CR1_SPE))) ;;
    modify (set_mstr (nz (Z.land val G233_SPI_CR1_MSTR)))
  else if addr =? _SPI_CR2 then
    modify (set_cr2 val) ;;
    g233_spi_update_irq
  else if addr =? _SPI_SR then
    let tmp := Z.land val (Z.lor G233_SPI_SR_OVR G233_SPI_SR_UDR) in
    modify (fun s => set_sr (Z.land (sr s) (not32 tmp)) s) ;;
    g233_spi_update_irq
  else if addr =? _SPI_DR then
    modify (set_dr (Z.land val 0xFF)) ;;
    s <- get_state ;;
    let cs0_active := cs0_en s && cs0_act s in
    let cs1_active := cs1_en s && cs1_act s in
    if spe s && mstr s && xorb cs0_active cs1_active
    then g233_spi_do_transfer (u8 (dr s))
    else ret tt
  else if addr =? _SPI_CSCTRL then
    modify (set_csctrl val) ;;
    modify (set_cs0_en (nz (Z.land val G233_SPI_CS0_ENABLE))) ;;
    modify (set_cs1_en (nz (Z.land val G233_SPI_CS1_ENABLE))) ;;
    modify (set_cs0_act (nz (Z.land val G233_SPI_CS0_ACTIVE))) ;;
    modify (set_cs1_act (nz (Z.land val G233_SPI_CS1_ACTIVE))) ;;
    g233_spi_update_cs
  else
    emit (EvBadWrite addr val).

(** ** Operations of the controller and runs *)

(** What the outside can ask of the device: a register read, a register
    write, or a reset. *)
Inductive op : Type :=
| OpRead (addr size : Z)
| OpWrite (addr val64 size : Z)
| OpReset.

Definition step (o : op) : M unit :=
  match o with
  | OpRead addr size => _ <- g233_spi_read addr size ;; ret tt
  | OpWrite addr val64 size => g233_spi_write addr val64 size
  | OpReset => g233_spi_reset
  end.

Fixpoint run (ops : list op) (w : World) : World :=
  match ops with
  | [] => w
  | o :: ops' => run ops' (exec (step o) w)
  end.

(** ** Vocabulary of the specification *)

(** The condition under which a DR write starts a transfer. *)
Definition qualifies (s : G233SPIState) : bool :=
  spe s && mstr s && xorb (cs0_en s && cs0_act s) (cs1_en s && cs1_act s).

(** The interrupt level as the specification words it, on register bits. *)
Definition interrupt_formula (c2 status : Z) : bool :=
  (Z.testbit c2 7 && Z.testbit status 1) ||
  (Z.testbit c2 6 && Z.testbit status 0) ||
  (Z.testbit c2 5 && (Z.testbit status 2 || Z.testbit status 3)).

(** The level of an active-low chip select. *)
Definition cs_formula (en act : bool) : Z := if en && act then 0 else 1.

(** The six flags mirror their register bits. *)
Definition mirror (s : G233SPIState) : Prop :=
  spe s = Z.testbit (cr1 s) 6 /\
  mstr s = Z.testbit (cr1 s) 2 /\
  cs0_en s = Z.testbit (csctrl s) 0 /\
  cs1_en s = Z.testbit (csctrl s) 1 /\
  cs0_act s = Z.testbit (csctrl s) 4 /\
  cs1_act s = Z.testbit (csctrl s) 5.

(** The status register when a transfer returns, from the one it began
    with. *)
Definition sr_after_transfer (status : Z) : Z :=
  let busy := Z.lor (Z.land status (not32 G233_SPI_SR_TXE)) G233_SPI_SR_BSY in
  let ovr :=
    if nz (Z.land busy G233_SPI_SR_RXNE)
    then Z.lor busy G233_SPI_SR_OVR else busy in
  Z.land (Z.lor (Z.lor ovr G233_SPI_SR_RXNE) G233_SPI_SR_TXE)
    (not32 G233_SPI_SR_BSY).

(** The UDR bit of SR. *)
Definition udr (w : World) : bool := Z.testbit (sr (st w)) 2.

(** Two device states that differ at most in SR. *)
Definition same_but_sr (s s' : G233SPIState) : Prop :=
  s' = set_sr (sr s') s.

(** ** Concrete machines *)

(** The instance memory as the object system hands it out: zero-filled. *)
Definition zero_state : G233SPIState :=
  mkG233SPIState 0 0 0 0 0 0 false false false false false false.

(** A peripheral that answers every byte with its complement. *)
Definition inverting_peer : SSIBus :=
  mkSSIBus unit tt (fun p tx => (p, Z.lxor tx 0xFF)).

(** The machine after construction and the first reset. *)
Definition power_on : World :=
  exec g233_spi_reset (mkWorld zero_state inverting_peer []).

(** Chip select 0 enabled and active, controller enabled as master, one
    byte written to DR. *)
Definition after_one_transfer : World :=
  run [OpWrite _SPI_CSCTRL 0x11 4; OpWrite _SPI_CR1 0x44 4;
       OpWrite _SPI_DR 0x5A 4] power_on.

(** Chip select 0 enabled and active, controller enabled as master:
    the next DR write starts a transfer. *)
Definition ready_to_send : World :=
  run [OpWrite _SPI_CSCTRL 0x11 4; OpWrite _SPI_CR1 0x44 4] power_on.

(** Two bytes sent with no DR read in between. *)
Definition after_two_transfers : World :=
  run [OpWrite _SPI_DR 0x3C 4] after_one_transfer.

(** ** One operation, case by case *)

(** The world an operation can leave behind, one constructor per path
    through [g233_spi_read], [g233_spi_write] and [g233_spi_reset]. *)
Inductive step_result (w : World) : World -> Prop :=
| StepPlainRead :
    (* reads of CR1, CR2, SR and CSCTRL *)
    step_result w w
| StepReadDR :
    let s' :=
      set_sr (Z.land (Z.land (sr (st w)) (not32 G233_SPI_SR_RXNE))
                (not32 G233_SPI_SR_OVR)) (st w) in
    step_result w
      (mkWorld s' (bus w) (EvSetIrq 2 (Z.b2z (irq_level s')) :: trace w))
| StepBadRead (addr : Z) :
    step_result w (mkWorld (st w) (bus w) (EvBadRead addr :: trace w))
| StepWriteCR1 (val64 : Z) :
    step_result w
      (mkWorld
         (set_mstr (nz (Z.land (u32 val64) G233_SPI_CR1_MSTR))
            (set_spe (nz (Z.land (u32 val64) G233_SPI_CR1_SPE))
               (set_cr1 (u32 val64) (st w))))
         (bus w) (trace w))
| StepWriteCR2 (val64 : Z) :
    let s' := set_cr2 (u32 val64) (st w) in
    step_result w
      (mkWorld s' (bus w) (EvSetIrq 2 (Z.b2z (irq_level s')) :: trace w))
| StepWriteSR (val64 : Z) :
    let s' :=
      set_sr (Z.land (sr (st w))
                (not32 (Z.land (u32 val64)
                          (Z.lor G233_SPI_SR_OVR G233_SPI_SR_UDR)))) (st w) in
    step_result w
      (mkWorld s' (bus w) (EvSetIrq 2 (Z.b2z (irq_level s')) :: trace w))
| StepWriteDRIdle (val64 : Z) :
    qualifies (st w) = false ->
    step_result w
      (mkWorld (set_dr (Z.land (u32 val64) 0xFF) (st w)) (bus w) (trace w))
| StepWriteDRBusy (val64 : Z) :
    qualifies (st w) = true ->
    let tx := u8 (Z.land (u32 val64) 0xFF) in
    let reply := peer_transfer (bus w) (peer_state (bus w)) tx in
    let rx := u32 (snd reply) in
    let s' :=
      set_sr (sr_after_transfer (sr (st w)))
        (set_rx_data (u8 rx) (set_dr (Z.land (u32 val64) 0xFF) (st w))) in
    step_result w
      (mkWorld s'
         (mkSSIBus (peer (bus w)) (fst reply) (peer_transfer (bus w)))
         (EvSetIrq 2 (Z.b2z (irq_level s')) :: EvSsiTransfer tx rx ::
          trace w))
| StepWriteCSCTRL (val64 : Z) :
    let val := u32 val64 in
    let s' :=
      set_cs1_act (nz (Z.land val G233_SPI_CS1_ACTIVE))
        (set_cs0_act (nz (Z.land val G233_SPI_CS0_ACTIVE))
           (set_cs1_en (nz (Z.land val G233_SPI_CS1_ENABLE))
              (set_cs0_en (nz (Z.land val G233_SPI_CS0_ENABLE))
                 (set_csctrl val (st w))))) in
    step_result w
      (mkWorld s' (bus w)
         (EvSetIrq 1 (cs_formula (cs1_en s') (cs1_act s')) ::
          EvSetIrq 0 (cs_formula (cs0_en s') (cs0_act s')) :: trace w))
| StepBadWrite (addr val64 : Z) :
    step_result w
      (mkWorld (st w) (bus w) (EvBadWrite addr (u32 val64) :: trace w))
| StepReset :
    step_result w
      (mkWorld
         (mkG233SPIState 0 0 G233_SPI_SR_TXE (dr (st w)) (csctrl (st w)) 0
            false false false false false false)
         (bus w)
         (EvSetIrq 2 0 :: EvSetIrq 1 1 :: EvSetIrq 0 1 :: trace w)).

(** ** Vocabulary of the run invariants *)

(** A register access, as opposed to a reset. *)
Definition is_access (o : op) : bool :=
  match o with
  | OpRead _ _ | OpWrite _ _ _ => true
  | OpReset => false
  end.

(** The number of bus exchanges an operation makes from a state: one for
    a DR write that qualifies, none for anything else. *)
Definition exchanges_of (o : op) (s : G233SPIState) : nat :=
  match o with
  | OpWrite addr _ _ =>
      if (addr =? _SPI_DR) && qualifies s then 1%nat else 0%nat
  | _ => 0%nat
  end.

(** The values SR takes between operations: TXE alone, TXE with RXNE,
    or TXE with RXNE and OVR. *)
Definition settled_sr (x : Z) : Prop := x = 0x2 \/ x = 0x3 \/ x = 0xB.

(** The two halves of the mirror invariant. *)
Definition mirror_cr1 (s : G233SPIState) : Prop :=
  spe s = Z.testbit (cr1 s) 6 /\ mstr s = Z.testbit (cr1 s) 2.

Definition mirror_cs (s : G233SPIState) : Prop :=
  cs0_en s = Z.testbit (csctrl s) 0 /\
  cs1_en s = Z.testbit (csctrl s) 1 /\
  cs0_act s = Z.testbit (csctrl s) 4 /\
  cs1_act s = Z.testbit (csctrl s) 5.

(** An output line that was driven low. *)
Definition is_low (level : option Z) : bool :=
  match level with
  | Some 0 => true
  | _ => false
  end.

(** Exactly one of the two chip-select lines is low. *)
Definition one_selected (t : list event) : bool :=
  xorb (is_low (line_level 0 t)) (is_low (line_level 1 t)).

(** Every bus exchange of a trace was made with exactly one chip-select
    line low. *)
Fixpoint selected_transfers (t : list event) : bool :=
  match t with
  | [] => true
  | EvSsiTransfer _ _ :: t' => one_selected t' && selected_transfers t'
  | _ :: t' => selected_transfers t'
  end.

(** The output lines carry the levels of the current state. *)
Definition lines_follow (w : World) : Prop :=
  line_level 0 (trace w) =
    Some (cs_formula (cs0_en (st w)) (cs0_act (st w))) /\
  line_level 1 (trace w) =
    Some (cs_formula (cs1_en (st w)) (cs1_act (st w))) /\
  line_level 2 (trace w) =
    Some (if interrupt_formula (cr2 (st w)) (sr (st w)) then 1 else 0).

(** ** Bit-level facts *)

Lemma testbit_one_shifted (k i : Z) :
  0 <= k -> Z.testbit (Z.shiftl 1 k) i = (i =? k).
Proof.
  intros Hk. rewrite Z.shiftl_1_l, Z.pow2_bits_eqb by assumption.
  apply Z.eqb_sym.
Qed.

(** [(v & (1u << k)) != 0] tests bit [k] of [v]. *)
Lemma nz_land_bit (v k : Z) :
  0 <= k -> nz (Z.land v (Z.shiftl 1 k)) = Z.testbit v k.
Proof.
  intros Hk. unfold nz.
  destruct (Z.testbit v k) eqn:E.
  - destruct (Z.eqb_spec (Z.land v (Z.shiftl 1 k)) 0) as [H0|]; [|reflexivity].
    assert (Hb : Z.testbit (Z.land v (Z.shiftl 1 k)) k = true).
    { rewrite Z.land_spec, testbit_one_shifted, E, Z.eqb_refl by assumption.
      reflexivity. }
    rewrite H0, Z.bits_0 in Hb. discriminate.
  - replace (Z.land v (Z.shiftl 1 k)) with 0; [reflexivity|].
    symmetry. apply Z.bits_inj'. intros i _.
    rewrite Z.land_spec, testbit_one_shifted, Z.bits_0 by assumption.
    destruct (Z.eqb_spec i k) as [->|].
    + rewrite E. reflexivity.
    + apply andb_false_r.
Qed.

Lemma nz_land_lor (v a b : Z) :
  nz (Z.land v (Z.lor a b)) = nz (Z.land v a) || nz (Z.land v b).
Proof.
  unfold nz. rewrite Z.land_lor_distr_r.
  destruct (Z.eqb_spec (Z.land v a) 0) as [Ha|Ha],
           (Z.eqb_spec (Z.land v b) 0) as [Hb|Hb],
           (Z.eqb_spec (Z.lor (Z.land v a) (Z.land v b)) 0) as [Hab|Hab];
    try reflexivity; exfalso.
  - apply Hab. apply Z.lor_eq_0_iff. split; assumption.
  - apply Z.lor_eq_0_iff in Hab. tauto.
  - apply Z.lor_eq_0_iff in Hab. tauto.
  - apply Z.lor_eq_0_iff in Hab. tauto.
Qed.

Lemma testbit_u32 (x i : Z) :
  Z.testbit (u32 x) i = (i <? 32) && Z.testbit x i.
Proof. unfold u32. apply Z.testbit_mod_pow2. lia. Qed.

Lemma testbit_u8 (x i : Z) :
  Z.testbit (u8 x) i = (i <? 8) && Z.testbit x i.
Proof. unfold u8. apply Z.testbit_mod_pow2. lia. Qed.

Lemma testbit_not32 (x i : Z) :
  Z.testbit (not32 x) i = (0 <=? i) && (i <? 32) && negb (Z.testbit x i).
Proof.
  unfold not32. rewrite testbit_u32.
  destruct (Z.leb_spec 0 i) as [Hi|Hi].
  - rewrite Z.lnot_spec by assumption. reflexivity.
  - rewrite (Z.testbit_neg_r (Z.lnot x)) by assumption. apply andb_false_r.
Qed.

(** Bits of a [uint32_t] above bit 31 and below bit 0 are clear. *)
Lemma in_u32_testbit (x i : Z) :
  in_u32 x -> Z.testbit x i = (0 <=? i) && (i <? 32) && Z.testbit x i.
Proof.
  intros Hx. destruct (Z.leb_spec 0 i) as [Hi|Hi].
  - destruct (Z.ltb_spec i 32) as [Hlt|Hge]; [reflexivity|].
    cbn [andb]. replace x with (u32 x) by (apply Z.mod_small; exact Hx).
    rewrite testbit_u32.
    destruct (Z.ltb_spec i 32); [lia|reflexivity].
  - rewrite Z.testbit_neg_r by assumption. reflexivity.
Qed.

Lemma u32_range (x : Z) : in_u32 (u32 x).
Proof. unfold in_u32, u32. apply Z.mod_pos_bound. lia. Qed.

Lemma u8_range (x : Z) : in_u8 (u8 x).
Proof. unfold in_u8, u8. apply Z.mod_pos_bound. lia. Qed.

(** Truncating to a byte after truncating to a word, or after masking
    with 0xFF, keeps the low byte. *)
Lemma u8_u32 (x : Z) : u8 (u32 x) = u8 x.
Proof.
  apply Z.bits_inj'. intros i Hi. rewrite !testbit_u8, testbit_u32.
  destruct (Z.ltb_spec i 8), (Z.ltb_spec i 32); try reflexivity; lia.
Qed.

Lemma land_255_u8 (x : Z) : Z.land x 0xFF = u8 x.
Proof. unfold u8. change 0xFF with (Z.ones 8). apply Z.land_ones. lia. Qed.

Lemma u8_idem (x : Z) : u8 (u8 x) = u8 x.
Proof. unfold u8. apply Z.mod_mod. lia. Qed.

(** The interrupt level the code computes is the formula of the
    specification. *)
Lemma irq_level_formula (s : G233SPIState) :
  irq_level s = interrupt_formula (cr2 s) (sr s).
Proof.
  unfold irq_level, interrupt_formula.
  unfold G233_SPI_SR_TXE, G233_SPI_SR_RXNE, G233_SPI_SR_UDR, G233_SPI_SR_OVR.
  rewrite nz_land_lor, !nz_land_bit by lia.
  destruct (Z.testbit (cr2 s) 7), (Z.testbit (cr2 s) 6), (Z.testbit (cr2 s) 5),
           (Z.testbit (sr s) 0), (Z.testbit (sr s) 1), (Z.testbit (sr s) 2),
           (Z.testbit (sr s) 3); reflexivity.
Qed.

(** ** What each function computes *)

Lemma g233_spi_update_irq_eq (w : World) :
  g233_spi_update_irq w =
  (tt, mkWorld (st w) (bus w)
         (EvSetIrq 2 (Z.b2z (irq_level (st w))) :: trace w)).
Proof. reflexivity. Qed.

Lemma g233_spi_update_cs_eq (w : World) :
  g233_spi_update_cs w =
  (tt, mkWorld (st w) (bus w)
         (EvSetIrq 1 (cs_formula (cs1_en (st w)) (cs1_act (st w))) ::
          EvSetIrq 0 (cs_formula (cs0_en (st w)) (cs0_act (st w))) ::
          trace w)).
Proof. reflexivity. Qed.

Lemma g233_spi_reset_eq (w : World) :
  g233_spi_reset w =
  (tt, mkWorld
         (mkG233SPIState 0 0 G233_SPI_SR_TXE (dr (st w)) (csctrl (st w)) 0
            false false false false false false)
         (bus w)
         (EvSetIrq 2 0 :: EvSetIrq 1 1 :: EvSetIrq 0 1 :: trace w)).
Proof. reflexivity. Qed.

Lemma g233_spi_write_CR1_eq (w : World) (val64 size : Z) :
  g233_spi_write _SPI_CR1 val64 size w =
  (tt, mkWorld
         (set_mstr (nz (Z.land (u32 val64) G233_SPI_CR1_MSTR))
            (set_spe (nz (Z.land (u32 val64) G233_SPI_CR1_SPE))
               (set_cr1 (u32 val64) (st w))))
         (bus w) (trace w)).
Proof. reflexivity. Qed.

Lemma g233_spi_write_CR2_eq (w : World) (val64 size : Z) :
  g233_spi_write _SPI_CR2 val64 size w =
  (tt, mkWorld (set_cr2 (u32 val64) (st w)) (bus w)
         (EvSetIrq 2 (Z.b2z (irq_level (set_cr2 (u32 val64) (st w)))) ::
          trace w)).
Proof. reflexivity. Qed.

Lemma g233_spi_write_SR_eq (w : World) (val64 size : Z) :
  let s' :=
    set_sr (Z.land (sr (st w))
              (not32 (Z.land (u32 val64)
                        (Z.lor G233_SPI_SR_OVR G233_SPI_SR_UDR)))) (st w) in
  g233_spi_write _SPI_SR val64 size w =
  (tt, mkWorld s' (bus w) (EvSetIrq 2 (Z.b2z (irq_level s')) :: trace w)).
Proof. reflexivity. Qed.

Lemma g233_spi_write_CSCTRL_eq (w : World) (val64 size : Z) :
  let val := u32 val64 in
  let s' :=
    set_cs1_act (nz (Z.land val G233_SPI_CS1_ACTIVE))
      (set_cs0_act (nz (Z.land val G233_SPI_CS0_ACTIVE))
         (set_cs1_en (nz (Z.land val G233_SPI_CS1_ENABLE))
            (set_cs0_en (nz (Z.land val G233_SPI_CS0_ENABLE))
               (set_csctrl val (st w))))) in
  g233_spi_write _SPI_CSCTRL val64 size w =
  (tt, mkWorld s' (bus w)
         (EvSetIrq 1 (cs_formula (cs1_en s') (cs1_act s')) ::
          EvSetIrq 0 (cs_formula (cs0_en s') (cs0_act s')) :: trace w)).
Proof. reflexivity. Qed.

(** A DR write that does not qualify only latches the low byte. *)
Lemma g233_spi_write_DR_idle (w : World) (val64 size : Z) :
  qualifies (st w) = false ->
  g233_spi_write _SPI_DR val64 size w =
  (tt, mkWorld (set_dr (Z.land (u32 val64) 0xFF) (st w)) (bus w) (trace w)).
Proof.
  destruct w as [s b t]; destruct s. unfold qualifies. cbn. intros Hq.
  cbv [g233_spi_write bind modify get_state st bus trace
       spe mstr cs0_en cs0_act cs1_en cs1_act set_dr _SPI_DR _SPI_CR1
       _SPI_CR2 _SPI_SR Z.eqb Pos.eqb].
  rewrite Hq. reflexivity.
Qed.

Lemma g233_spi_do_transfer_eq (w : World) (tx : Z) :
  let reply := peer_transfer (bus w) (peer_state (bus w)) tx in
  let rx := u32 (snd reply) in
  let s' :=
    set_sr (sr_after_transfer (sr (st w))) (set_rx_data (u8 rx) (st w)) in
  g233_spi_do_transfer tx w =
  (tt, mkWorld s'
         (mkSSIBus (peer (bus w)) (fst reply) (peer_transfer (bus w)))
         (EvSetIrq 2 (Z.b2z (irq_level s')) :: EvSsiTransfer tx rx ::
          trace w)).
Proof.
  destruct w as [s b t]; destruct s as [c1 c2 status d cs rxd f1 f2 f3 f4 f5 f6].
  cbv zeta. cbn [st bus trace sr].
  unfold g233_spi_do_transfer, bind, modify, ssi_transfer, get_state.
  cbn [st bus trace sr set_sr].
  destruct (peer_transfer b (peer_state b) tx) as [p' raw].
  cbn [fst snd st bus trace sr set_sr]. unfold sr_after_transfer.
  destruct (nz (Z.land (Z.lor (Z.land status (not32 G233_SPI_SR_TXE))
                          G233_SPI_SR_BSY) G233_SPI_SR_RXNE));
    reflexivity.
Qed.

Lemma g233_spi_write_DR_busy (w : World) (val64 size : Z) :
  qualifies (st w) = true ->
  g233_spi_write _SPI_DR val64 size w =
  g233_spi_do_transfer (u8 (Z.land (u32 val64) 0xFF))
    (mkWorld (set_dr (Z.land (u32 val64) 0xFF) (st w)) (bus w) (trace w)).
Proof.
  destruct w as [s b t]; destruct s. unfold qualifies. cbn. intros Hq.
  cbv [g233_spi_write bind modify get_state st bus trace
       spe mstr cs0_en cs0_act cs1_en cs1_act set_dr _SPI_DR _SPI_CR1
       _SPI_CR2 _SPI_SR Z.eqb Pos.eqb dr].
  rewrite Hq. reflexivity.
Qed.

Lemma g233_spi_read_DR_eq (w : World) (size : Z) :
  let s' :=
    set_sr (Z.land (Z.land (sr (st w)) (not32 G233_SPI_SR_RXNE))
              (not32 G233_SPI_SR_OVR)) (st w) in
  g233_spi_read _SPI_DR size w =
  (rx_data (st w),
   mkWorld s' (bus w) (EvSetIrq 2 (Z.b2z (irq_level s')) :: trace w)).
Proof. reflexivity. Qed.

Lemma g233_spi_read_CR1_eq (w : World) (size : Z) :
  g233_spi_read _SPI_CR1 size w = (cr1 (st w), w).
Proof. reflexivity. Qed.

Lemma g233_spi_read_CR2_eq (w : World) (size : Z) :
  g233_spi_read _SPI_CR2 size w = (cr2 (st w), w).
Proof. reflexivity. Qed.

Lemma g233_spi_read_SR_eq (w : World) (size : Z) :
  g233_spi_read _SPI_SR size w = (sr (st w), w).
Proof. reflexivity. Qed.

Lemma g233_spi_read_CSCTRL_eq (w : World) (size : Z) :
  g233_spi_read _SPI_CSCTRL size w = (csctrl (st w), w).
Proof. reflexivity. Qed.

(** ** Bits of the status register *)

Ltac unfold_masks :=
  unfold G233_SPI_SR_RXNE, G233_SPI_SR_TXE, G233_SPI_SR_UDR,
    G233_SPI_SR_OVR, G233_SPI_SR_BSY, G233_SPI_CR1_SPE, G233_SPI_CR1_MSTR,
    G233_SPI_CS0_ENABLE, G233_SPI_CS1_ENABLE, G233_SPI_CS0_ACTIVE,
    G233_SPI_CS1_ACTIVE in *.

Ltac push_testbit :=
  repeat first
    [ rewrite Z.land_spec
    | rewrite Z.lor_spec
    | rewrite testbit_not32
    | rewrite testbit_u32
    | rewrite testbit_one_shifted by lia ].

Ltac split_index :=
  repeat match goal with
    | |- context [Z.eqb ?a ?b] => destruct (Z.eqb_spec a b); try lia
    | |- context [Z.ltb ?a ?b] => destruct (Z.ltb_spec a b); try lia
    | |- context [Z.leb ?a ?b] => destruct (Z.leb_spec a b); try lia
    end.

Ltac solve_bits :=
  unfold_masks; push_testbit; split_index; subst;
  repeat match goal with
    | |- context [Z.testbit ?x ?i] => destruct (Z.testbit x i)
    end;
  try reflexivity; try lia.

(** Bit by bit, a transfer sets RXNE and TXE, clears BSY, raises OVR when
    RXNE was already set, and keeps the rest of the 32-bit register. *)
Lemma sr_after_transfer_bits (status i : Z) :
  Z.testbit (sr_after_transfer status) i =
  if i =? 0 then true
  else if i =? 1 then true
  else if i =? 3 then Z.testbit status 0 || Z.testbit status 3
  else if i =? 7 then false
  else (0 <=? i) && (i <? 32) && Z.testbit status i.
Proof.
  unfold sr_after_transfer. cbv zeta.
  replace (nz (Z.land (Z.lor (Z.land status (not32 G233_SPI_SR_TXE))
                         G233_SPI_SR_BSY) G233_SPI_SR_RXNE))
    with (Z.testbit status 0).
  2:{ unfold G233_SPI_SR_RXNE. rewrite nz_land_bit by lia. solve_bits. }
  destruct (Z.testbit status 0) eqn:E0;
    unfold_masks; push_testbit; split_index; subst; rewrite ?E0;
    repeat match goal with
      | |- context [Z.testbit ?x ?j] => destruct (Z.testbit x j)
      end;
    reflexivity.
Qed.

(** [&] with a 32-bit mask and [|] of 32-bit values stay in 32 bits. *)
Lemma land_in_u32 (a b : Z) : in_u32 b -> in_u32 (Z.land a b).
Proof.
  intros Hb. replace (Z.land a b) with (u32 (Z.land a b)).
  - apply u32_range.
  - apply Z.bits_inj'. intros i Hi.
    rewrite testbit_u32, Z.land_spec, (in_u32_testbit b i Hb).
    destruct (i <? 32), (0 <=? i), (Z.testbit a i), (Z.testbit b i);
      reflexivity.
Qed.

Lemma lor_in_u32 (a b : Z) : in_u32 a -> in_u32 b -> in_u32 (Z.lor a b).
Proof.
  intros Ha Hb. replace (Z.lor a b) with (u32 (Z.lor a b)).
  - apply u32_range.
  - apply Z.bits_inj'. intros i Hi.
    rewrite testbit_u32, Z.lor_spec, (in_u32_testbit a i Ha),
      (in_u32_testbit b i Hb).
    destruct (i <? 32), (0 <=? i), (Z.testbit a i), (Z.testbit b i);
      reflexivity.
Qed.

Lemma not32_in_u32 (x : Z) : in_u32 (not32 x).
Proof. apply u32_range. Qed.

Lemma sr_after_transfer_range (status : Z) : in_u32 (sr_after_transfer status).
Proof. apply land_in_u32, not32_in_u32. Qed.

(** ** The interrupt aggregator and the chip-select generator *)

(** C7. The interrupt aggregator drives line 2 to true exactly when
    (CR2 bit 7 and SR.TXE) or (CR2 bit 6 and SR.RXNE) or (CR2 bit 5 and
    (SR.UDR or SR.OVR)).  It changes neither the registers nor the bus, so
    the level depends on CR2 and SR alone, and a second recomputation with
    the same inputs drives the line to the same level once more. *)
Theorem update_irq_level (w : World) :
  let level :=
    if interrupt_formula (cr2 (st w)) (sr (st w)) then 1 else 0 in
  let w1 := exec g233_spi_update_irq w in
  let w2 := exec g233_spi_update_irq w1 in
  w1 = mkWorld (st w) (bus w) (EvSetIrq 2 level :: trace w) /\
  w2 = mkWorld (st w) (bus w) (EvSetIrq 2 level :: trace w1) /\
  line_level 2 (trace w1) = Some level /\
  line_level 2 (trace w2) = Some level.
Proof.
  cbv zeta. unfold exec.
  rewrite !g233_spi_update_irq_eq. cbn [snd st bus trace line_level Nat.eqb].
  rewrite irq_level_formula.
  destruct (interrupt_formula (cr2 (st w)) (sr (st w))); cbn [Z.b2z];
    repeat split; reflexivity.
Qed.

(** C8. The chip-select generator drives line i to 0 exactly when
    csI_en && csI_act holds and to 1 otherwise, from the flags alone; a
    write to CSCTRL ends by driving both lines to the levels of the flags
    it has just loaded from bits 0, 1, 4 and 5 of the written value. *)
Theorem update_cs_levels (w : World) :
  let s := st w in
  let l0 := if cs0_en s && cs0_act s then 0 else 1 in
  let l1 := if cs1_en s && cs1_act s then 0 else 1 in
  let w1 := exec g233_spi_update_cs w in
  w1 = mkWorld s (bus w) (EvSetIrq 1 l1 :: EvSetIrq 0 l0 :: trace w) /\
  line_level 0 (trace w1) = Some l0 /\
  line_level 1 (trace w1) = Some l1 /\
  forall val64 size : Z,
    let w' := exec (g233_spi_write _SPI_CSCTRL val64 size) w in
    let s' := st w' in
    let l0' := if cs0_en s' && cs0_act s' then 0 else 1 in
    let l1' := if cs1_en s' && cs1_act s' then 0 else 1 in
    trace w' = EvSetIrq 1 l1' :: EvSetIrq 0 l0' :: trace w /\
    line_level 0 (trace w') = Some l0' /\
    line_level 1 (trace w') = Some l1' /\
    cs0_en s' = Z.testbit val64 0 /\ cs0_act s' = Z.testbit val64 4 /\
    cs1_en s' = Z.testbit val64 1 /\ cs1_act s' = Z.testbit val64 5.
Proof.
  cbv zeta. unfold exec. rewrite g233_spi_update_cs_eq.
  cbn [snd st bus trace line_level Nat.eqb]. unfold cs_formula.
  repeat split.
  all: rewrite g233_spi_write_CSCTRL_eq; cbv zeta;
    cbn [snd st trace line_level Nat.eqb cs0_en cs0_act cs1_en cs1_act
         set_cs0_en set_cs0_act set_cs1_en set_cs1_act set_csctrl];
    unfold cs_formula; try reflexivity.
  all: unfold_masks; rewrite nz_land_bit by lia; rewrite testbit_u32;
    reflexivity.
Qed.

(** ** Writes to the data register *)

(** C2. A write to DR calls the bus exactly once when
    spe && mstr && ((cs0_en && cs0_act) XOR (cs1_en && cs1_act)) holds;
    otherwise it calls nothing at all and SR keeps its value. *)
Theorem dr_write_gating (w : World) (val64 size : Z) :
  let s := st w in
  let w' := exec (g233_spi_write _SPI_DR val64 size) w in
  exists new : list event,
    trace w' = new ++ trace w /\
    if spe s && mstr s &&
       xorb (cs0_en s && cs0_act s) (cs1_en s && cs1_act s)
    then ssi_calls new = 1%nat
    else new = [] /\ sr (st w') = sr s.
Proof.
  cbv zeta. unfold exec. fold (qualifies (st w)).
  destruct (qualifies (st w)) eqn:Hq.
  - rewrite g233_spi_write_DR_busy, g233_spi_do_transfer_eq by assumption.
    cbv zeta. cbn [snd trace].
    eexists [_; _]. split; reflexivity.
  - rewrite g233_spi_write_DR_idle by assumption.
    exists []. repeat split; reflexivity.
Qed.

(** C3. When the transfer condition holds, a write to DR shifts out the
    low byte of the written value in one exchange.  When it returns, OVR
    is set if RXNE was set before and keeps its value if not, rx_data is
    the low byte of what the bus returned, RXNE and TXE are set, BSY is
    clear, and the last call made is the interrupt line driven to the
    level of the resulting CR2 and SR. *)
Theorem dr_write_transfer (w : World) (val64 size : Z) :
  qualifies (st w) = true ->
  let s := st w in
  let tx := u8 val64 in
  let reply := peer_transfer (bus w) (peer_state (bus w)) tx in
  let rx := u32 (snd reply) in
  let w' := exec (g233_spi_write _SPI_DR val64 size) w in
  let s' := st w' in
  trace w' =
    EvSetIrq 2 (if interrupt_formula (cr2 s') (sr s') then 1 else 0) ::
    EvSsiTransfer tx rx :: trace w /\
  bus w' = mkSSIBus (peer (bus w)) (fst reply) (peer_transfer (bus w)) /\
  rx_data s' = u8 (snd reply) /\
  (if Z.testbit (sr s) 0
   then Z.testbit (sr s') 3 = true
   else Z.testbit (sr s') 3 = Z.testbit (sr s) 3) /\
  Z.testbit (sr s') 0 = true /\
  Z.testbit (sr s') 1 = true /\
  Z.testbit (sr s') 7 = false /\
  dr s' = tx /\ cr1 s' = cr1 s /\ cr2 s' = cr2 s /\ csctrl s' = csctrl s.
Proof.
  intros Hq. cbv zeta. unfold exec.
  rewrite g233_spi_write_DR_busy, g233_spi_do_transfer_eq by assumption.
  cbv zeta. cbn [snd st bus trace peer_state].
  rewrite irq_level_formula.
  assert (Htx : u8 (Z.land (u32 val64) 0xFF) = u8 val64)
    by (rewrite land_255_u8, u8_idem, u8_u32; reflexivity).
  rewrite !Htx.
  destruct (st w) as [c1 c2 status d cs rxd f1 f2 f3 f4 f5 f6].
  cbn [sr cr1 cr2 dr csctrl rx_data set_sr set_rx_data set_dr].
  rewrite !sr_after_transfer_bits. cbn [Z.eqb Pos.eqb].
  repeat split.
  - apply u8_u32.
  - destruct (Z.testbit status 0); reflexivity.
  - rewrite land_255_u8. apply u8_u32.
Qed.

(** ** Reads of the data register and writes to the status register *)

(** C4. A read at the DR offset returns rx_data, whatever was last
    written to DR.  It clears RXNE and OVR, keeps every other bit of SR and
    every other register and flag, and ends by driving the interrupt line
    to the level of CR2 and the new SR. *)
Theorem dr_read_acknowledges (w : World) (size : Z) :
  in_u32 (sr (st w)) ->
  let s := st w in
  let r := g233_spi_read _SPI_DR size w in
  let w' := snd r in
  let s' := st w' in
  fst r = rx_data s /\
  (forall i : Z,
     Z.testbit (sr s') i =
     if (i =? 0) || (i =? 3) then false else Z.testbit (sr s) i) /\
  same_but_sr s s' /\
  bus w' = bus w /\
  trace w' =
    EvSetIrq 2 (if interrupt_formula (cr2 s') (sr s') then 1 else 0) ::
    trace w.
Proof.
  intros Hsr. cbv zeta. rewrite g233_spi_read_DR_eq. cbv zeta.
  cbn [fst snd st bus trace]. rewrite irq_level_formula.
  destruct (st w) as [c1 c2 status d cs rxd f1 f2 f3 f4 f5 f6].
  cbn [sr cr2 rx_data set_sr] in *.
  repeat split.
  intros i. rewrite (in_u32_testbit status i Hsr).
  unfold_masks. push_testbit. split_index; subst;
    destruct (Z.testbit status _); reflexivity.
Qed.

(** C6. A write of v to the SR offset clears OVR when bit 3 of v is set
    and UDR when bit 2 of v is set, and changes no other bit of SR and no
    other register or flag; it ends by driving the interrupt line to the
    level of CR2 and the new SR. *)
Theorem sr_write_clears_errors (w : World) (val64 size : Z) :
  in_u32 (sr (st w)) ->
  let s := st w in
  let w' := exec (g233_spi_write _SPI_SR val64 size) w in
  let s' := st w' in
  (forall i : Z,
     Z.testbit (sr s') i =
     if (i =? 2) || (i =? 3)
     then Z.testbit (sr s) i && negb (Z.testbit val64 i)
     else Z.testbit (sr s) i) /\
  same_but_sr s s' /\
  bus w' = bus w /\
  trace w' =
    EvSetIrq 2 (if interrupt_formula (cr2 s') (sr s') then 1 else 0) ::
    trace w.
Proof.
  intros Hsr. cbv zeta. unfold exec. rewrite g233_spi_write_SR_eq. cbv zeta.
  cbn [fst snd st bus trace]. rewrite irq_level_formula.
  destruct (st w) as [c1 c2 status d cs rxd f1 f2 f3 f4 f5 f6].
  cbn [sr cr2 rx_data set_sr] in *.
  repeat split.
  intros i. rewrite (in_u32_testbit status i Hsr).
  unfold_masks. push_testbit. split_index; subst;
    destruct (Z.testbit status _), (Z.testbit val64 _); reflexivity.
Qed.

(** ** Accesses outside the register map *)

Lemma g233_spi_read_bad_eq (w : World) (addr size : Z) :
  ~ In addr [_SPI_CR1; _SPI_CR2; _SPI_SR; _SPI_DR; _SPI_CSCTRL] ->
  g233_spi_read addr size w =
  (0, mkWorld (st w) (bus w) (EvBadRead addr :: trace w)).
Proof.
  intros Hbad. cbn [In] in Hbad.
  unfold g233_spi_read, bind, get_state.
  destruct (Z.eqb_spec addr _SPI_CR1); [intuition congruence|].
  destruct (Z.eqb_spec addr _SPI_CR2); [intuition congruence|].
  destruct (Z.eqb_spec addr _SPI_SR); [intuition congruence|].
  destruct (Z.eqb_spec addr _SPI_DR); [intuition congruence|].
  destruct (Z.eqb_spec addr _SPI_CSCTRL); [intuition congruence|].
  reflexivity.
Qed.

Lemma g233_spi_write_bad_eq (w : World) (addr val64 size : Z) :
  ~ In addr [_SPI_CR1; _SPI_CR2; _SPI_SR; _SPI_DR; _SPI_CSCTRL] ->
  g233_spi_write addr val64 size w =
  (tt, mkWorld (st w) (bus w) (EvBadWrite addr (u32 val64) :: trace w)).
Proof.
  intros Hbad. cbn [In] in Hbad.
  unfold g233_spi_write.
  destruct (Z.eqb_spec addr _SPI_CR1); [intuition congruence|].
  destruct (Z.eqb_spec addr _SPI_CR2); [intuition congruence|].
  destruct (Z.eqb_spec addr _SPI_SR); [intuition congruence|].
  destruct (Z.eqb_spec addr _SPI_DR); [intuition congruence|].
  destruct (Z.eqb_spec addr _SPI_CSCTRL); [intuition congruence|].
  reflexivity.
Qed.

(** C10. At an offset outside 0x00, 0x04, 0x08, 0x0C and 0x10 a read
    returns 0 and a write returns without effect: the registers, the
    flags, the bus and the level of every output line stay as they were,
    and the only call made is the guest-error log entry.  Both handlers
    return: the model has no failing path. *)
Theorem bad_offset_access (w : World) (addr val64 size : Z) :
  ~ In addr [_SPI_CR1; _SPI_CR2; _SPI_SR; _SPI_DR; _SPI_CSCTRL] ->
  let r := g233_spi_read addr size w in
  let w' := exec (g233_spi_write addr val64 size) w in
  fst r = 0 /\
  st (snd r) = st w /\ bus (snd r) = bus w /\
  trace (snd r) = EvBadRead addr :: trace w /\
  st w' = st w /\ bus w' = bus w /\
  trace w' = EvBadWrite addr (u32 val64) :: trace w /\
  forall n : nat,
    line_level n (trace (snd r)) = line_level n (trace w) /\
    line_level n (trace w') = line_level n (trace w).
Proof.
  intros Hbad. cbv zeta. unfold exec.
  rewrite g233_spi_read_bad_eq, g233_spi_write_bad_eq by assumption.
  cbn [fst snd st bus trace line_level]. repeat split.
Qed.

(** ** Invariants of runs *)

Ltac case_addr addr :=
  destruct (Z.eq_dec addr _SPI_CR1) as [->|?];
  [|destruct (Z.eq_dec addr _SPI_CR2) as [->|?];
  [|destruct (Z.eq_dec addr _SPI_SR) as [->|?];
  [|destruct (Z.eq_dec addr _SPI_DR) as [->|?];
  [|destruct (Z.eq_dec addr _SPI_CSCTRL) as [->|?];
  [|assert (~ In addr [_SPI_CR1; _SPI_CR2; _SPI_SR; _SPI_DR; _SPI_CSCTRL])
      by (cbn [In]; intuition congruence)]]]]].

Lemma exec_step_read (w : World) (addr size : Z) :
  exec (step (OpRead addr size)) w = snd (g233_spi_read addr size w).
Proof.
  unfold exec, step, bind, ret.
  destruct (g233_spi_read addr size w). reflexivity.
Qed.

(** No read changes the UDR bit. *)
Lemma udr_read (w : World) (addr size : Z) :
  udr (snd (g233_spi_read addr size w)) = udr w.
Proof.
  case_addr addr.
  - reflexivity.
  - reflexivity.
  - reflexivity.
  - rewrite g233_spi_read_DR_eq. cbv zeta. unfold udr.
    destruct w as [s b t]; destruct s. cbn [snd st sr set_sr]. solve_bits.
  - reflexivity.
  - rewrite g233_spi_read_bad_eq by assumption. reflexivity.
Qed.

(** A write keeps the UDR bit or clears it. *)
Lemma udr_write (w : World) (addr val64 size : Z) :
  udr (exec (g233_spi_write addr val64 size) w) = udr w \/
  udr (exec (g233_spi_write addr val64 size) w) = false.
Proof.
  unfold exec. case_addr addr.
  - left. rewrite g233_spi_write_CR1_eq.
    destruct w as [s b t]; destruct s. reflexivity.
  - left. rewrite g233_spi_write_CR2_eq.
    destruct w as [s b t]; destruct s. reflexivity.
  - rewrite g233_spi_write_SR_eq. cbv zeta. unfold udr.
    destruct w as [s b t]; destruct s as [c1 c2 status d cs rxd f1 f2 f3 f4 f5 f6].
    cbn [snd st sr set_sr].
    destruct (Z.testbit val64 2) eqn:Ev; [right|left]; unfold_masks;
      push_testbit; rewrite Ev; split_index;
      destruct (Z.testbit status 2); reflexivity.
  - left. destruct (qualifies (st w)) eqn:Hq.
    + rewrite g233_spi_write_DR_busy, g233_spi_do_transfer_eq by assumption.
      cbv zeta. unfold udr.
      destruct w as [s b t]; destruct s. cbn [snd st sr set_sr set_dr set_rx_data].
      rewrite sr_after_transfer_bits. reflexivity.
    + rewrite g233_spi_write_DR_idle by assumption.
      destruct w as [s b t]; destruct s. reflexivity.
  - left. rewrite g233_spi_write_CSCTRL_eq.
    destruct w as [s b t]; destruct s. reflexivity.
  - left. rewrite g233_spi_write_bad_eq by assumption. reflexivity.
Qed.

Lemma udr_reset (w : World) : udr (exec g233_spi_reset w) = false.
Proof. reflexivity. Qed.

Lemma udr_step (o : op) (w : World) :
  udr (exec (step o) w) = udr w \/ udr (exec (step o) w) = false.
Proof.
  destruct o as [addr size|addr val64 size|].
  - left. rewrite exec_step_read. apply udr_read.
  - apply udr_write.
  - right. apply udr_reset.
Qed.

Lemma udr_run (ops : list op) :
  forall w : World, udr w = false -> udr (run ops w) = false.
Proof.
  induction ops as [|o ops IH]; intros w Hw; cbn [run].
  - exact Hw.
  - apply IH. destruct (udr_step o w) as [H|H]; congruence.
Qed.

(** C9. Every operation keeps the UDR bit of SR or clears it, so from
    the state a reset leaves, however the machine was before, no sequence
    of reads, writes and further resets reaches a state with UDR set. *)
Theorem udr_never_set :
  (forall (o : op) (w : World),
     udr (exec (step o) w) = udr w \/ udr (exec (step o) w) = false) /\
  (forall (ops : list op) (w0 : World),
     udr (run ops (exec g233_spi_reset w0)) = false).
Proof.
  split.
  - exact udr_step.
  - intros ops w0. apply udr_run, udr_reset.
Qed.

(** The field ranges of the C types are kept by every operation, so a
    32-bit SR is all a run ever sees. *)
Lemma wf_reset (w : World) :
  wf_state (st w) -> wf_state (st (exec g233_spi_reset w)).
Proof.
  unfold exec. rewrite g233_spi_reset_eq.
  unfold wf_state, in_u32, in_u8. cbn [snd st cr1 cr2 sr dr csctrl rx_data].
  change G233_SPI_SR_TXE with 2. lia.
Qed.

Lemma wf_read (w : World) (addr size : Z) :
  wf_state (st w) -> wf_state (st (snd (g233_spi_read addr size w))).
Proof.
  intros Hwf. case_addr addr; try exact Hwf.
  - rewrite g233_spi_read_DR_eq. cbv zeta.
    destruct w as [s b t]; destruct s.
    unfold wf_state in *. cbn [snd st cr1 cr2 sr dr csctrl rx_data set_sr] in *.
    intuition auto using land_in_u32, not32_in_u32.
  - rewrite g233_spi_read_bad_eq by assumption. exact Hwf.
Qed.

Lemma wf_write (w : World) (addr val64 size : Z) :
  wf_state (st w) -> wf_state (st (exec (g233_spi_write addr val64 size) w)).
Proof.
  intros Hwf. unfold exec.
  assert (H255 : in_u32 0xFF) by (unfold in_u32; lia).
  case_addr addr.
  - rewrite g233_spi_write_CR1_eq.
    destruct w as [s b t]; destruct s. unfold wf_state in *.
    cbn [snd st cr1 cr2 sr dr csctrl rx_data set_cr1 set_spe set_mstr] in *.
    intuition auto using u32_range.
  - rewrite g233_spi_write_CR2_eq.
    destruct w as [s b t]; destruct s. unfold wf_state in *.
    cbn [snd st cr1 cr2 sr dr csctrl rx_data set_cr2] in *.
    intuition auto using u32_range.
  - rewrite g233_spi_write_SR_eq. cbv zeta.
    destruct w as [s b t]; destruct s. unfold wf_state in *.
    cbn [snd st cr1 cr2 sr dr csctrl rx_data set_sr] in *.
    intuition auto using land_in_u32, not32_in_u32.
  - destruct (qualifies (st w)) eqn:Hq.
    + rewrite g233_spi_write_DR_busy, g233_spi_do_transfer_eq by assumption.
      cbv zeta.
      destruct w as [s b t]; destruct s. unfold wf_state in *.
      cbn [snd st cr1 cr2 sr dr csctrl rx_data set_sr set_dr set_rx_data] in *.
      intuition auto using land_in_u32, sr_after_transfer_range, u8_range.
    + rewrite g233_spi_write_DR_idle by assumption.
      destruct w as [s b t]; destruct s. unfold wf_state in *.
      cbn [snd st cr1 cr2 sr dr csctrl rx_data set_dr] in *.
      intuition auto using land_in_u32.
  - rewrite g233_spi_write_CSCTRL_eq. cbv zeta.
    destruct w as [s b t]; destruct s. unfold wf_state in *.
    cbn [snd st cr1 cr2 sr dr csctrl rx_data set_csctrl set_cs0_en
         set_cs0_act set_cs1_en set_cs1_act] in *.
    intuition auto using u32_range.
  - rewrite g233_spi_write_bad_eq by assumption. exact Hwf.
Qed.

Lemma wf_run (ops : list op) :
  forall w : World, wf_state (st w) -> wf_state (st (run ops w)).
Proof.
  induction ops as [|o ops IH]; intros w Hwf; cbn [run]; [exact Hwf|].
  apply IH. destruct o as [addr size|addr val64 size|].
  - rewrite exec_step_read. apply wf_read, Hwf.
  - apply wf_write, Hwf.
  - apply wf_reset, Hwf.
Qed.

(** ** The mirror flags *)

Lemma mirror_power_on : mirror (st power_on).
Proof. repeat split. Qed.

Lemma mirror_read (w : World) (addr size : Z) :
  mirror (st w) -> mirror (st (snd (g233_spi_read addr size w))).
Proof.
  intros Hm. case_addr addr; try exact Hm.
  rewrite g233_spi_read_bad_eq by assumption. exact Hm.
Qed.

Lemma mirror_write (w : World) (addr val64 size : Z) :
  mirror (st w) -> mirror (st (exec (g233_spi_write addr val64 size) w)).
Proof.
  intros Hm. unfold exec. case_addr addr.
  - rewrite g233_spi_write_CR1_eq.
    destruct w as [s b t]; destruct s. unfold mirror in *.
    cbn [snd st cr1 csctrl spe mstr cs0_en cs0_act cs1_en cs1_act
         set_cr1 set_spe set_mstr] in *.
    unfold_masks. rewrite !nz_land_bit by lia. tauto.
  - rewrite g233_spi_write_CR2_eq.
    destruct w as [s b t]; destruct s. exact Hm.
  - rewrite g233_spi_write_SR_eq. cbv zeta.
    destruct w as [s b t]; destruct s. exact Hm.
  - destruct (qualifies (st w)) eqn:Hq.
    + rewrite g233_spi_write_DR_busy, g233_spi_do_transfer_eq by assumption.
      cbv zeta. destruct w as [s b t]; destruct s. exact Hm.
    + rewrite g233_spi_write_DR_idle by assumption.
      destruct w as [s b t]; destruct s. exact Hm.
  - rewrite g233_spi_write_CSCTRL_eq. cbv zeta.
    destruct w as [s b t]; destruct s. unfold mirror in *.
    cbn [snd st cr1 csctrl spe mstr cs0_en cs0_act cs1_en cs1_act
         set_csctrl set_cs0_en set_cs0_act set_cs1_en set_cs1_act] in *.
    unfold_masks. rewrite !nz_land_bit by lia. tauto.
  - rewrite g233_spi_write_bad_eq by assumption. exact Hm.
Qed.

(** ** Reset *)

(** What a reset establishes from any state: CR1, CR2 and rx_data are
    zero, SR holds TXE alone, the six flags are false, both chip selects
    are driven to 1 and the interrupt line to 0.  The fields [dr] and
    [csctrl] are not assigned and keep the values they had. *)
Lemma g233_spi_reset_establishes (w : World) :
  let w' := exec g233_spi_reset w in
  let s' := st w' in
  cr1 s' = 0 /\ cr2 s' = 0 /\ rx_data s' = 0 /\
  (forall i : Z, Z.testbit (sr s') i = (i =? 1)) /\
  spe s' = false /\ mstr s' = false /\
  cs0_en s' = false /\ cs0_act s' = false /\
  cs1_en s' = false /\ cs1_act s' = false /\
  trace w' = EvSetIrq 2 0 :: EvSetIrq 1 1 :: EvSetIrq 0 1 :: trace w /\
  line_level 0 (trace w') = Some 1 /\
  line_level 1 (trace w') = Some 1 /\
  line_level 2 (trace w') = Some 0 /\
  dr s' = dr (st w) /\ csctrl s' = csctrl (st w).
Proof.
  cbv zeta. unfold exec. rewrite g233_spi_reset_eq.
  cbn [snd st trace cr1 cr2 sr dr csctrl rx_data spe mstr cs0_en cs0_act
       cs1_en cs1_act line_level Nat.eqb].
  repeat split.
  intros i. unfold G233_SPI_SR_TXE. apply testbit_one_shifted. lia.
Qed.

(** C1. Reset of the machine that has CSCTRL = 0x11 and has sent the
    byte 0x5A: CR1, CR2 and rx_data are cleared, SR is TXE alone, the
    flags are false and the lines are released, but DR still holds 0x5A
    and CSCTRL still holds 0x11, where the specification has both at 0. *)
Theorem reset_keeps_dr_csctrl :
  let w' := exec g233_spi_reset after_one_transfer in
  let s' := st w' in
  dr s' = 0x5A /\ csctrl s' = 0x11 /\
  cr1 s' = 0 /\ cr2 s' = 0 /\ sr s' = 2 /\ rx_data s' = 0 /\
  cs0_en s' = false /\ cs0_act s' = false /\
  line_level 0 (trace w') = Some 1 /\
  line_level 1 (trace w') = Some 1 /\
  line_level 2 (trace w') = Some 0.
Proof. cbv zeta. repeat split. Qed.

(** C5. The mirror invariant holds after power-on and is kept by every
    read and write (lemmas [mirror_power_on], [mirror_read] and
    [mirror_write]), but not by reset: in the machine that has
    CSCTRL = 0x11 the invariant holds, and after reset the flags cs0_en
    and cs0_act are false while bits 0 and 4 of CSCTRL are still set. *)
Theorem reset_breaks_mirror :
  mirror (st after_one_transfer) /\
  ~ mirror (st (exec g233_spi_reset after_one_transfer)).
Proof.
  split.
  - repeat split.
  - intros (_ & _ & H & _). discriminate H.
Qed.

(** ** End-to-end scenarios *)

(** CSCTRL = enable and active for CS0 only: CS0 goes low, CS1 stays
    high. *)
Example scenario_chip_select :
  let w := run [OpWrite _SPI_CSCTRL 0x11 4] power_on in
  line_level 0 (trace w) = Some 0 /\ line_level 1 (trace w) = Some 1.
Proof. vm_compute. split; reflexivity. Qed.

(** One byte out, one byte in: DR reads back what the peer sent, and the
    read clears RXNE; TXE is set and BSY clear before and after. *)
Example scenario_exchange :
  sr (st after_one_transfer) = 0x3 /\
  g233_spi_read _SPI_DR 4 after_one_transfer =
  (0xA5,
   mkWorld (set_sr 0x2 (st after_one_transfer)) (bus after_one_transfer)
     (EvSetIrq 2 0 :: trace after_one_transfer)).
Proof. vm_compute. split; reflexivity. Qed.

(** A second transfer with the first byte still unread raises OVR, and
    the DR read that follows clears it together with RXNE. *)
Example scenario_overrun :
  sr (st after_two_transfers) = 0xB /\
  rx_data (st after_two_transfers) = 0xC3 /\
  sr (st (run [OpRead _SPI_DR 4] after_two_transfers)) = 0x2.
Proof. vm_compute. repeat split. Qed.

(** With only the RXNE interrupt enabled, the line is high after the
    transfer and low again after the DR read. *)
Example scenario_rxne_interrupt :
  let w := run [OpWrite _SPI_CR2 0x40 4; OpWrite _SPI_DR 0x5A 4]
             ready_to_send in
  line_level 2 (trace ready_to_send) = Some 0 /\
  line_level 2 (trace w) = Some 1 /\
  line_level 2 (trace (run [OpRead _SPI_DR 4] w)) = Some 0.
Proof. vm_compute. repeat split. Qed.

(** ** The theorems at concrete machines *)

Lemma dr_write_transfer_witness :
  qualifies (st ready_to_send) = true /\
  let w' := exec (g233_spi_write _SPI_DR 0x5A 4) ready_to_send in
  trace w' = EvSetIrq 2 0 :: EvSsiTransfer 0x5A 0xA5 :: trace ready_to_send /\
  rx_data (st w') = 0xA5 /\ sr (st w') = 3.
Proof.
  split; [reflexivity|].
  pose proof (dr_write_transfer ready_to_send 0x5A 4 eq_refl) as H.
  cbv zeta in H. destruct H as (Ht & _ & Hrx & _).
  cbv zeta. split; [exact Ht|]. split; [exact Hrx|reflexivity].
Defined.

Lemma dr_read_acknowledges_witness :
  in_u32 (sr (st after_one_transfer)) /\
  dr (st after_one_transfer) = 0x5A /\
  fst (g233_spi_read _SPI_DR 4 after_one_transfer) = 0xA5 /\
  Z.testbit (sr (st (snd (g233_spi_read _SPI_DR 4 after_one_transfer)))) 0 =
  false.
Proof.
  assert (Hsr : in_u32 (sr (st after_one_transfer)))
    by (unfold in_u32; cbn; lia).
  split; [exact Hsr|]. split; [reflexivity|].
  pose proof (dr_read_acknowledges after_one_transfer 4 Hsr) as H.
  cbv zeta in H. destruct H as (Hret & Hbits & _).
  split; [exact Hret|]. exact (Hbits 0).
Defined.

Lemma sr_write_clears_errors_witness :
  in_u32 (sr (st after_two_transfers)) /\
  Z.testbit (sr (st after_two_transfers)) 3 = true /\
  Z.testbit
    (sr (st (exec (g233_spi_write _SPI_SR 0x8 4) after_two_transfers))) 3 =
  false.
Proof.
  assert (Hsr : in_u32 (sr (st after_two_transfers)))
    by (unfold in_u32; cbn; lia).
  split; [exact Hsr|]. split; [reflexivity|].
  pose proof (sr_write_clears_errors after_two_transfers 0x8 4 Hsr) as H.
  cbv zeta in H. destruct H as (Hbits & _).
  exact (Hbits 3).
Defined.

Lemma bad_offset_access_witness :
  ~ In 0x14 [_SPI_CR1; _SPI_CR2; _SPI_SR; _SPI_DR; _SPI_CSCTRL] /\
  fst (g233_spi_read 0x14 4 power_on) = 0 /\
  st (exec (g233_spi_write 0x14 0xDEADBEEF 4) power_on) = st power_on.
Proof.
  assert (Hbad : ~ In 0x14 [_SPI_CR1; _SPI_CR2; _SPI_SR; _SPI_DR; _SPI_CSCTRL])
    by (cbn [In]; intros [H|[H|[H|[H|[H|[]]]]]]; discriminate H).
  split; [exact Hbad|].
  pose proof (bad_offset_access power_on 0x14 0xDEADBEEF 4 Hbad) as H.
  cbv zeta in H. destruct H as (Hret & _ & _ & _ & Hst & _).
  split; [exact Hret|exact Hst].
Defined.

(** ** Every operation is one of the listed paths *)

Lemma step_classify (o : op) (w : World) : step_result w (exec (step o) w).
Proof.
  destruct o as [addr size|addr val64 size|].
  - rewrite exec_step_read. case_addr addr.
    + apply StepPlainRead.
    + apply StepPlainRead.
    + apply StepPlainRead.
    + rewrite g233_spi_read_DR_eq. apply StepReadDR.
    + apply StepPlainRead.
    + rewrite g233_spi_read_bad_eq by assumption. apply StepBadRead.
  - unfold exec, step. case_addr addr.
    + rewrite g233_spi_write_CR1_eq. apply StepWriteCR1.
    + rewrite g233_spi_write_CR2_eq. apply StepWriteCR2.
    + rewrite g233_spi_write_SR_eq. apply StepWriteSR.
    + destruct (qualifies (st w)) eqn:Hq.
      * rewrite g233_spi_write_DR_busy, g233_spi_do_transfer_eq by assumption.
        apply (StepWriteDRBusy w val64 Hq).
      * rewrite g233_spi_write_DR_idle by assumption.
        apply StepWriteDRIdle, Hq.
    + rewrite g233_spi_write_CSCTRL_eq. apply StepWriteCSCTRL.
    + rewrite g233_spi_write_bad_eq by assumption. apply StepBadWrite.
  - unfold exec, step. rewrite g233_spi_reset_eq. apply StepReset.
Qed.

(** What every operation keeps, every run keeps. *)
Lemma run_invariant (P : World -> Prop) :
  (forall (o : op) (w : World), P w -> P (exec (step o) w)) ->
  forall (ops : list op) (w : World), P w -> P (run ops w).
Proof.
  intros Hstep ops. induction ops as [|o ops IH]; intros w Hw; cbn [run].
  - exact Hw.
  - apply IH, Hstep, Hw.
Qed.

(** ** The status register between operations *)

Lemma settled_sr_write (x val64 : Z) :
  settled_sr x ->
  settled_sr
    (Z.land x
       (not32 (Z.land (u32 val64) (Z.lor G233_SPI_SR_OVR G233_SPI_SR_UDR)))).
Proof.
  unfold settled_sr. intros [-> | [-> | ->]].
  - left. apply Z.bits_inj'. intros i Hi.
    change 2 with (Z.shiftl 1 1). solve_bits.
  - right. left. apply Z.bits_inj'. intros i Hi.
    change 3 with (Z.lor (Z.shiftl 1 0) (Z.shiftl 1 1)). solve_bits.
  - right. destruct (Z.testbit val64 3) eqn:Ev; [left|right];
      apply Z.bits_inj'; intros i Hi.
    + change 11 with (Z.lor (Z.lor (Z.shiftl 1 0) (Z.shiftl 1 1)) (Z.shiftl 1 3)).
      change 3 with (Z.lor (Z.shiftl 1 0) (Z.shiftl 1 1)) at 2.
      unfold_masks. push_testbit. split_index; subst; rewrite ?Ev;
        try reflexivity; destruct (Z.testbit val64 _); reflexivity.
    + change 11 with (Z.lor (Z.lor (Z.shiftl 1 0) (Z.shiftl 1 1)) (Z.shiftl 1 3)).
      unfold_masks. push_testbit. split_index; subst; rewrite ?Ev;
        try reflexivity; destruct (Z.testbit val64 _); reflexivity.
Qed.

Lemma settled_sr_step (o : op) (w : World) :
  settled_sr (sr (st w)) -> settled_sr (sr (st (exec (step o) w))).
Proof.
  intros H. destruct (step_classify o w); cbv zeta;
    destruct w as [s b t]; destruct s as [c1 c2 x d cs rxd f1 f2 f3 f4 f5 f6];
    cbn [st sr set_sr set_cr1 set_cr2 set_dr set_rx_data set_csctrl set_spe
         set_mstr set_cs0_en set_cs0_act set_cs1_en set_cs1_act] in *;
    try exact H.
  - destruct H as [-> | [-> | ->]]; left; reflexivity.
  - apply settled_sr_write, H.
  - destruct H as [-> | [-> | ->]]; [right; left|right; right|right; right];
      reflexivity.
  - left. reflexivity.
Qed.

(** X2. In every state reached from a reset by reads, writes and resets,
    SR is TXE alone, TXE with RXNE, or TXE with RXNE and OVR: TXE is set
    and BSY clear whenever the device is at rest, and OVR is never set
    without RXNE. *)
Theorem sr_at_rest (ops : list op) (w0 : World) :
  let x := sr (st (run ops (exec g233_spi_reset w0))) in
  (x = 0x2 \/ x = 0x3 \/ x = 0xB) /\
  Z.testbit x 1 = true /\ Z.testbit x 7 = false /\
  implb (Z.testbit x 3) (Z.testbit x 0) = true.
Proof.
  cbv zeta.
  assert (H : settled_sr (sr (st (run ops (exec g233_spi_reset w0))))).
  { apply (run_invariant (fun w => settled_sr (sr (st w)))).
    - exact settled_sr_step.
    - left. reflexivity. }
  split; [exact H|].
  destruct H as [-> | [-> | ->]]; repeat split.
Qed.

(** ** The output lines and the state *)

Lemma is_low_cs_formula (en act : bool) :
  is_low (Some (cs_formula en act)) = en && act.
Proof. destruct en, act; reflexivity. Qed.

Lemma lines_follow_step (o : op) (w : World) :
  lines_follow w -> lines_follow (exec (step o) w).
Proof.
  unfold lines_follow. intros (H0 & H1 & H2).
  destruct (step_classify o w); cbv zeta;
    cbn [st trace line_level Nat.eqb]; rewrite ?irq_level_formula;
    destruct w as [s b t]; destruct s as [c1 c2 x d cs rxd f1 f2 f3 f4 f5 f6];
    cbn [st trace cr2 sr cs0_en cs0_act cs1_en cs1_act
         set_sr set_cr1 set_cr2 set_dr set_rx_data set_csctrl set_spe
         set_mstr set_cs0_en set_cs0_act set_cs1_en set_cs1_act] in *;
    repeat split; try assumption;
    match goal with
    | |- Some (Z.b2z ?f) = Some _ => destruct f; reflexivity
    end.
Qed.

Lemma lines_follow_reset (w : World) : lines_follow (exec g233_spi_reset w).
Proof. repeat split. Qed.

(** X3. In every state reached from a reset, each chip-select line
    carries 0 when the enable and active flags of that line are both set
    and 1 otherwise, and the interrupt line carries the level that the
    current CR2 and SR give: no operation leaves an output behind the
    state. *)
Theorem outputs_follow_state (ops : list op) (w0 : World) :
  let w := run ops (exec g233_spi_reset w0) in
  let s := st w in
  line_level 0 (trace w) = Some (if cs0_en s && cs0_act s then 0 else 1) /\
  line_level 1 (trace w) = Some (if cs1_en s && cs1_act s then 0 else 1) /\
  line_level 2 (trace w) =
    Some (if interrupt_formula (cr2 s) (sr s) then 1 else 0).
Proof.
  cbv zeta.
  apply (run_invariant lines_follow lines_follow_step), lines_follow_reset.
Qed.

Lemma selected_step (o : op) (w : World) :
  lines_follow w /\ selected_transfers (trace w) = true ->
  lines_follow (exec (step o) w) /\
  selected_transfers (trace (exec (step o) w)) = true.
Proof.
  intros [Hl Ht]. split; [apply lines_follow_step, Hl|].
  destruct (step_classify o w) as [| | | | | | | val64 Hq | | |]; cbv zeta;
    cbn [trace selected_transfers]; try exact Ht.
  rewrite Ht, andb_true_r. unfold one_selected.
  destruct Hl as (H0 & H1 & _). rewrite H0, H1, !is_low_cs_formula.
  unfold qualifies in Hq.
  destruct (spe (st w)), (mstr (st w)); try discriminate Hq. exact Hq.
Qed.

(** X4. Starting from a reset with nothing on the record, every bus
    exchange of a run was made while exactly one of the two chip-select
    lines was low: the controller never shifts a byte out with no
    peripheral selected or with both selected. *)
Theorem transfers_only_when_selected
    (ops : list op) (s0 : G233SPIState) (b0 : SSIBus) :
  selected_transfers
    (trace (run ops (exec g233_spi_reset (mkWorld s0 b0 [])))) = true.
Proof.
  apply (run_invariant
           (fun w => lines_follow w /\ selected_transfers (trace w) = true)
           selected_step).
  split; [apply lines_follow_reset|reflexivity].
Qed.

(** ** Bus exchanges per operation *)

(** X5. An operation makes one bus exchange when it is a DR write in a
    state that qualifies and none otherwise: no read, no write to another
    register, no access outside the map and no reset ever calls the
    bus. *)
Theorem exchanges_per_operation (o : op) (w : World) :
  ssi_calls (trace (exec (step o) w)) =
  (exchanges_of o (st w) + ssi_calls (trace w))%nat.
Proof.
  destruct o as [addr size|addr val64 size|].
  - rewrite exec_step_read. cbn [exchanges_of Nat.add]. case_addr addr;
      try reflexivity.
    rewrite g233_spi_read_bad_eq by assumption. reflexivity.
  - unfold exec, step, exchanges_of. case_addr addr; try reflexivity.
    + change (_SPI_DR =? _SPI_DR) with true. cbn [andb].
      destruct (qualifies (st w)) eqn:Hq.
      * rewrite g233_spi_write_DR_busy, g233_spi_do_transfer_eq by assumption.
        reflexivity.
      * rewrite g233_spi_write_DR_idle by assumption. reflexivity.
    + rewrite g233_spi_write_bad_eq by assumption.
      destruct (Z.eqb_spec addr _SPI_DR); [contradiction|reflexivity].
  - reflexivity.
Qed.

(** ** Register read-back *)

(** X6. CR1, CR2 and CSCTRL read back what was written: a read that
    follows a write to the same offset returns the written value reduced
    to 32 bits, and changes nothing. *)
Theorem control_registers_read_back (w : World) (val64 size size' : Z) :
  let after (addr : Z) := exec (g233_spi_write addr val64 size) w in
  g233_spi_read _SPI_CR1 size' (after _SPI_CR1) =
    (val64 mod 2 ^ 32, after _SPI_CR1) /\
  g233_spi_read _SPI_CR2 size' (after _SPI_CR2) =
    (val64 mod 2 ^ 32, after _SPI_CR2) /\
  g233_spi_read _SPI_CSCTRL size' (after _SPI_CSCTRL) =
    (val64 mod 2 ^ 32, after _SPI_CSCTRL).
Proof.
  cbv zeta. unfold exec.
  rewrite g233_spi_write_CR1_eq, g233_spi_write_CR2_eq,
    g233_spi_write_CSCTRL_eq.
  cbv zeta. cbn [snd].
  rewrite g233_spi_read_CR1_eq, g233_spi_read_CR2_eq, g233_spi_read_CSCTRL_eq.
  repeat split.
Qed.

(** X7. A read at any offset other than DR returns the register at that
    offset (0 outside the map) and leaves the registers, the flags, the
    bus and every output line as they were; it makes no bus exchange. *)
Theorem reads_without_effect (w : World) (addr size : Z) :
  addr <> _SPI_DR ->
  let r := g233_spi_read addr size w in
  let s := st w in
  fst r =
    (if addr =? _SPI_CR1 then cr1 s
     else if addr =? _SPI_CR2 then cr2 s
     else if addr =? _SPI_SR then sr s
     else if addr =? _SPI_CSCTRL then csctrl s
     else 0) /\
  st (snd r) = s /\ bus (snd r) = bus w /\
  ssi_calls (trace (snd r)) = ssi_calls (trace w) /\
  forall n : nat, line_level n (trace (snd r)) = line_level n (trace w).
Proof.
  intros Hdr. cbv zeta. case_addr addr; try contradiction.
  - repeat split.
  - repeat split.
  - repeat split.
  - repeat split.
  - rewrite g233_spi_read_bad_eq by assumption.
    destruct (Z.eqb_spec addr _SPI_CR1); [contradiction|].
    destruct (Z.eqb_spec addr _SPI_CR2); [contradiction|].
    destruct (Z.eqb_spec addr _SPI_SR); [contradiction|].
    destruct (Z.eqb_spec addr _SPI_CSCTRL); [contradiction|].
    repeat split.
Qed.

(** ** Writes to the control registers *)

(** X8. A write to CR1 loads the register with the value reduced to 32
    bits, spe with bit 6 and mstr with bit 2 of it.  Nothing else
    changes and no call leaves the device: enabling the controller does
    not send a byte latched in DR earlier. *)
Theorem cr1_write_effect (w : World) (val64 size : Z) :
  let s := st w in
  let w' := exec (g233_spi_write _SPI_CR1 val64 size) w in
  let s' := st w' in
  cr1 s' = val64 mod 2 ^ 32 /\
  spe s' = Z.testbit val64 6 /\ mstr s' = Z.testbit val64 2 /\
  cr2 s' = cr2 s /\ sr s' = sr s /\ dr s' = dr s /\
  csctrl s' = csctrl s /\ rx_data s' = rx_data s /\
  cs0_en s' = cs0_en s /\ cs0_act s' = cs0_act s /\
  cs1_en s' = cs1_en s /\ cs1_act s' = cs1_act s /\
  bus w' = bus w /\ trace w' = trace w.
Proof.
  cbv zeta. unfold exec. rewrite g233_spi_write_CR1_eq.
  cbn [snd st bus trace]. destruct (st w).
  cbn [cr1 cr2 sr dr csctrl rx_data spe mstr cs0_en cs0_act cs1_en cs1_act
       set_cr1 set_spe set_mstr].
  unfold_masks. rewrite !nz_land_bit, !testbit_u32 by lia.
  repeat split.
Qed.

(** X9. A write to CR2 loads the register with the value reduced to 32
    bits, changes nothing else, and drives the interrupt line at once to
    the level the new enable bits give with the current SR: bit 7 of the
    value with TXE, bit 6 with RXNE, bit 5 with UDR or OVR. *)
Theorem cr2_write_effect (w : World) (val64 size : Z) :
  let s := st w in
  let w' := exec (g233_spi_write _SPI_CR2 val64 size) w in
  st w' = set_cr2 (val64 mod 2 ^ 32) s /\
  bus w' = bus w /\
  trace w' =
    EvSetIrq 2 (if interrupt_formula val64 (sr s) then 1 else 0) ::
    trace w.
Proof.
  cbv zeta. unfold exec. rewrite g233_spi_write_CR2_eq.
  cbn [snd st bus trace]. rewrite irq_level_formula.
  destruct (st w). cbn [cr2 sr set_cr2].
  unfold interrupt_formula. rewrite !testbit_u32.
  repeat split.
Qed.

(** ** Sending and receiving *)

Lemma qualifies_after_transfer (s : G233SPIState) (x rxd d : Z) :
  qualifies (set_sr x (set_rx_data rxd (set_dr d s))) = qualifies s.
Proof. destruct s. reflexivity. Qed.

(** X10. A DR write in a state that does not qualify stores the low byte
    of the value in [dr] and does nothing else: no call leaves the
    device, SR and rx_data keep their values, and a DR read that follows
    still returns the byte received earlier, not the byte written. *)
Theorem dr_write_idle (w : World) (val64 size size' : Z) :
  qualifies (st w) = false ->
  let w' := exec (g233_spi_write _SPI_DR val64 size) w in
  st w' = set_dr (val64 mod 2 ^ 8) (st w) /\
  bus w' = bus w /\ trace w' = trace w /\
  fst (g233_spi_read _SPI_DR size' w') = rx_data (st w).
Proof.
  intros Hq. cbv zeta. unfold exec.
  rewrite g233_spi_write_DR_idle by assumption.
  cbn [snd st bus trace]. rewrite g233_spi_read_DR_eq. cbn [fst st].
  rewrite land_255_u8.
  assert (Hb : u8 (u32 val64) = val64 mod 2 ^ 8) by apply u8_u32.
  rewrite Hb. destruct (st w). repeat split.
Qed.

(** X11. A DR write in a state that qualifies, followed by a DR read:
    the read returns the low byte the peripheral answered with, and
    leaves SR with RXNE and OVR clear, TXE set and BSY clear. *)
Theorem exchange_then_read (w : World) (val64 size size' : Z) :
  qualifies (st w) = true ->
  let reply := peer_transfer (bus w) (peer_state (bus w)) (u8 val64) in
  let w1 := exec (g233_spi_write _SPI_DR val64 size) w in
  let r := g233_spi_read _SPI_DR size' w1 in
  let x := sr (st (snd r)) in
  fst r = u8 (snd reply) /\
  Z.testbit x 0 = false /\ Z.testbit x 3 = false /\
  Z.testbit x 1 = true /\ Z.testbit x 7 = false.
Proof.
  intros Hq. cbv zeta. unfold exec.
  rewrite g233_spi_write_DR_busy, g233_spi_do_transfer_eq by assumption.
  cbv zeta. cbn [snd]. rewrite g233_spi_read_DR_eq. cbv zeta.
  cbn [fst snd st].
  assert (Htx : u8 (Z.land (u32 val64) 0xFF) = u8 val64)
    by (rewrite land_255_u8, u8_idem, u8_u32; reflexivity).
  rewrite !Htx. destruct (st w).
  cbn [sr rx_data set_sr set_rx_data set_dr].
  split; [apply u8_u32|].
  unfold G233_SPI_SR_RXNE, G233_SPI_SR_OVR.
  rewrite !Z.land_spec, !testbit_not32, !testbit_one_shifted,
    !sr_after_transfer_bits by lia.
  cbn [Z.eqb Z.leb Z.ltb Z.compare Pos.eqb Pos.compare Pos.compare_cont
       negb andb].
  repeat split. apply andb_false_r.
Qed.

(** X12. Two DR writes in a state that qualifies, with no DR read in
    between: both bytes are exchanged, in order, the second with the
    peripheral as the first exchange left it; the byte received first is
    overwritten by the second and OVR is set together with RXNE. *)
Theorem back_to_back_overrun (w : World) (v1 v2 size : Z) :
  qualifies (st w) = true ->
  let reply1 := peer_transfer (bus w) (peer_state (bus w)) (u8 v1) in
  let reply2 := peer_transfer (bus w) (fst reply1) (u8 v2) in
  let w2 := run [OpWrite _SPI_DR v1 size; OpWrite _SPI_DR v2 size] w in
  rx_data (st w2) = u8 (snd reply2) /\
  Z.testbit (sr (st w2)) 3 = true /\
  Z.testbit (sr (st w2)) 0 = true /\
  exists l1 l2 : Z,
    trace w2 =
      EvSetIrq 2 l2 :: EvSsiTransfer (u8 v2) (u32 (snd reply2)) ::
      EvSetIrq 2 l1 :: EvSsiTransfer (u8 v1) (u32 (snd reply1)) ::
      trace w.
Proof.
  intros Hq. cbv zeta. cbn [run step]. unfold exec.
  assert (Htx : forall v, u8 (Z.land (u32 v) 0xFF) = u8 v)
    by (intros v; rewrite land_255_u8, u8_idem, u8_u32; reflexivity).
  rewrite (g233_spi_write_DR_busy w v1 size Hq), g233_spi_do_transfer_eq.
  cbv zeta. cbn [snd st bus trace peer_state peer_transfer].
  rewrite g233_spi_write_DR_busy
    by (cbn [st]; rewrite qualifies_after_transfer; exact Hq).
  rewrite g233_spi_do_transfer_eq.
  cbv zeta. cbn [snd st bus trace peer_state peer_transfer].
  rewrite !Htx. destruct (st w).
  cbn [sr rx_data set_sr set_rx_data set_dr].
  rewrite !sr_after_transfer_bits. cbn [Z.eqb Pos.eqb orb].
  split; [apply u8_u32|]. split; [reflexivity|]. split; [reflexivity|].
  eexists _, _. reflexivity.
Qed.

(** ** The mirror invariant, operation by operation *)

Lemma mirror_kept_by_accesses_aux (ops : list op) :
  forall w : World,
    mirror (st w) -> forallb is_access ops = true -> mirror (st (run ops w)).
Proof.
  induction ops as [|o ops IH]; intros w Hm Hacc; cbn [run].
  - exact Hm.
  - cbn [forallb] in Hacc. apply andb_true_iff in Hacc as [Ho Hops].
    apply IH; [|exact Hops].
    destruct o as [addr size|addr val64 size|].
    + rewrite exec_step_read. apply mirror_read, Hm.
    + apply mirror_write, Hm.
    + discriminate Ho.
Qed.

(** X13. The mirror invariant is kept by every register access: from a
    state in which the six flags agree with their bits of CR1 and CSCTRL,
    any sequence of reads and writes, at any offsets and with any values,
    ends in such a state. *)
Theorem mirror_kept_by_accesses (ops : list op) (w : World) :
  mirror (st w) -> forallb is_access ops = true -> mirror (st (run ops w)).
Proof. intros Hm Hacc. apply mirror_kept_by_accesses_aux; assumption. Qed.

Lemma mirror_cr1_step (o : op) (w : World) :
  mirror_cr1 (st w) -> mirror_cr1 (st (exec (step o) w)).
Proof.
  unfold mirror_cr1. intros H.
  destruct (step_classify o w); cbv zeta;
    destruct w as [s b t]; destruct s;
    cbn [st cr1 spe mstr set_sr set_cr1 set_cr2 set_dr set_rx_data
         set_csctrl set_spe set_mstr set_cs0_en set_cs0_act set_cs1_en
         set_cs1_act] in *;
    try exact H.
  - unfold_masks. rewrite !nz_land_bit by lia. split; reflexivity.
  - split; reflexivity.
Qed.

(** X14. The CR1 half of the mirror invariant holds in every state
    reached from a reset, further resets included: spe is bit 6 and mstr
    is bit 2 of CR1. *)
Theorem mirror_cr1_always (ops : list op) (w0 : World) :
  let s := st (run ops (exec g233_spi_reset w0)) in
  spe s = Z.testbit (cr1 s) 6 /\ mstr s = Z.testbit (cr1 s) 2.
Proof.
  cbv zeta.
  apply (run_invariant (fun w => mirror_cr1 (st w)) mirror_cr1_step).
  split; reflexivity.
Qed.

Lemma mirror_halves (s : G233SPIState) :
  mirror_cr1 s -> mirror_cs s -> mirror s.
Proof. unfold mirror_cr1, mirror_cs, mirror. tauto. Qed.

(** X15. A write to CSCTRL brings the four chip-select flags in line with
    the register whatever they were before, so after a reset the first
    CSCTRL write restores the whole mirror invariant, and the accesses
    that follow keep it. *)
Theorem mirror_restored_by_csctrl_write
    (w0 : World) (val64 size : Z) (ops : list op) :
  forallb is_access ops = true ->
  mirror
    (st (run (OpReset :: OpWrite _SPI_CSCTRL val64 size :: ops) w0)).
Proof.
  intros Hacc. cbn [run].
  apply mirror_kept_by_accesses_aux; [|exact Hacc].
  apply mirror_halves.
  - apply (mirror_cr1_step (OpWrite _SPI_CSCTRL val64 size)).
    split; reflexivity.
  - unfold exec, step. rewrite g233_spi_write_CSCTRL_eq. cbv zeta.
    unfold mirror_cs.
    cbn [snd st csctrl cs0_en cs0_act cs1_en cs1_act set_csctrl
         set_cs0_en set_cs0_act set_cs1_en set_cs1_act].
    unfold_masks. rewrite !nz_land_bit by lia. repeat split.
Qed.

(** ** Reset from any state *)

(** X1. From any state a reset leaves CR1, CR2 and rx_data at zero, SR
    with TXE alone and the six flags false, keeps [dr] and [csctrl] as
    they were, makes no bus exchange and drives both chip selects to 1
    and the interrupt line to 0.  A DR read that follows returns 0, so a
    byte received before the reset is gone, and a second reset changes
    nothing in the device. *)
Theorem reset_effect (w : World) :
  let w' := exec g233_spi_reset w in
  st w' =
    mkG233SPIState 0 0 0x2 (dr (st w)) (csctrl (st w)) 0
      false false false false false false /\
  bus w' = bus w /\
  ssi_calls (trace w') = ssi_calls (trace w) /\
  line_level 0 (trace w') = Some 1 /\
  line_level 1 (trace w') = Some 1 /\
  line_level 2 (trace w') = Some 0 /\
  fst (g233_spi_read _SPI_DR 4 w') = 0 /\
  st (exec g233_spi_reset w') = st w'.
Proof.
  cbv zeta. unfold exec. rewrite !g233_spi_reset_eq.
  cbn [snd st bus trace]. rewrite g233_spi_read_DR_eq.
  repeat split.
Qed.

(** ** The run theorems at concrete machines *)

Lemma reads_without_effect_witness :
  _SPI_SR <> _SPI_DR /\
  fst (g233_spi_read _SPI_SR 4 after_one_transfer) = 0x3 /\
  st (snd (g233_spi_read _SPI_SR 4 after_one_transfer)) =
  st after_one_transfer.
Proof.
  assert (Hne : _SPI_SR <> _SPI_DR) by discriminate.
  split; [exact Hne|].
  pose proof (reads_without_effect after_one_transfer _SPI_SR 4 Hne) as H.
  cbv zeta in H. destruct H as (Hret & Hst & _).
  split; [exact Hret|exact Hst].
Defined.

Lemma dr_write_idle_witness :
  qualifies (st power_on) = false /\
  dr (st (exec (g233_spi_write _SPI_DR 0x15A 4) power_on)) = 0x5A /\
  trace (exec (g233_spi_write _SPI_DR 0x15A 4) power_on) = trace power_on.
Proof.
  split; [reflexivity|].
  pose proof (dr_write_idle power_on 0x15A 4 4 eq_refl) as H.
  cbv zeta in H. destruct H as (Hst & _ & Ht & _).
  split; [rewrite Hst; reflexivity|exact Ht].
Defined.

Lemma exchange_then_read_witness :
  qualifies (st ready_to_send) = true /\
  fst (g233_spi_read _SPI_DR 4
         (exec (g233_spi_write _SPI_DR 0x5A 4) ready_to_send)) = 0xA5.
Proof.
  split; [reflexivity|].
  pose proof (exchange_then_read ready_to_send 0x5A 4 4 eq_refl) as H.
  cbv zeta in H. destruct H as (Hret & _). exact Hret.
Defined.

Lemma back_to_back_overrun_witness :
  qualifies (st ready_to_send) = true /\
  rx_data
    (st (run [OpWrite _SPI_DR 0x5A 4; OpWrite _SPI_DR 0x3C 4] ready_to_send)) =
  0xC3 /\
  Z.testbit
    (sr (st (run [OpWrite _SPI_DR 0x5A 4; OpWrite _SPI_DR 0x3C 4]
               ready_to_send))) 3 = true.
Proof.
  split; [reflexivity|].
  pose proof (back_to_back_overrun ready_to_send 0x5A 0x3C 4 eq_refl) as H.
  cbv zeta in H. destruct H as (Hrx & Hovr & _).
  split; [exact Hrx|exact Hovr].
Defined.

Lemma mirror_kept_by_accesses_witness :
  mirror (st power_on) /\
  forallb is_access
    [OpWrite _SPI_CSCTRL 0x22 4; OpWrite _SPI_CR1 0x40 4; OpRead _SPI_DR 4] =
  true /\
  mirror
    (st (run [OpWrite _SPI_CSCTRL 0x22 4; OpWrite _SPI_CR1 0x40 4;
              OpRead _SPI_DR 4] power_on)).
Proof.
  assert (Hm : mirror (st power_on)) by (repeat split).
  split; [exact Hm|]. split; [reflexivity|].
  exact (mirror_kept_by_accesses
           [OpWrite _SPI_CSCTRL 0x22 4; OpWrite _SPI_CR1 0x40 4;
            OpRead _SPI_DR 4] power_on Hm eq_refl).
Defined.

Lemma mirror_restored_by_csctrl_write_witness :
  forallb is_access [OpRead _SPI_CSCTRL 4] = true /\
  mirror
    (st (run [OpReset; OpWrite _SPI_CSCTRL 0x22 4; OpRead _SPI_CSCTRL 4]
           after_one_transfer)).
Proof.
  split; [reflexivity|].
  exact (mirror_restored_by_csctrl_write after_one_transfer 0x22 4
           [OpRead _SPI_CSCTRL 4] eq_refl).
Defined.
